(** * graphdoc, plugins/document.schema: the schema-to-SDL renderer

    A shallow embedding of [SchemaPlugin] (src/plugins/document.schema/index.ts)
    and the properties of its renderers.  Strings are [string], arrays are
    [list], nullable values are [option], and what may throw (the [throw] of
    the dispatcher, the resolver called on no type) has an [outcome].  A
    nullable string is falsy when it is [None] or [""]. *)

From Stdlib Require Import String Ascii List Bool Arith Lia.
Import ListNotations.
Open Scope string_scope.

(** ** JavaScript string and array primitives used by the plugin *)

(** [Array.prototype.join] on an array of strings. *)
Definition join (sep : string) (l : list string) : string := String.concat sep l.

Definition newline : ascii := "010"%char.

Definition NL : string := String newline "".

(** The double quote, as a one-character string. *)
Definition QUOTE : string := String "034"%char "".

(** [String.prototype.split] with a one-character separator: the pieces
    between the occurrences of [sep]; never an empty array. *)
Fixpoint split (sep : ascii) (s : string) : list string :=
  match s with
  | EmptyString => [""]
  | String c rest =>
      if Ascii.eqb c sep then "" :: split sep rest
      else match split sep rest with
           | piece :: pieces => String c piece :: pieces
           | [] => [String c ""]
           end
  end.

(** ** The introspection model (lib/interface) *)

(** The kind tags of lib/utility: the six kinds of a named type and the two
    wrappers of a type reference. *)
Inductive Kind : Set :=
  | SCALAR | OBJECT | INTERFACE | UNION | ENUM | INPUT_OBJECT | LIST | NON_NULL.

#[local] Set Warnings "-register-all".

(** A type reference: a named type, or a LIST / NON_NULL wrapper around
    [ofType].  The root operation types of a schema have the same shape. *)
Inductive TypeRef : Set :=
  mkTypeRef (kind : Kind) (name : string) (description : option string)
            (ofType : option TypeRef).

Module Ref.
Definition kind (t : TypeRef) : Kind := let (k, _, _, _) := t in k.
Definition name (t : TypeRef) : string := let (_, n, _, _) := t in n.
Definition description (t : TypeRef) : option string := let (_, _, d, _) := t in d.
Definition ofType (t : TypeRef) : option TypeRef := let (_, _, _, o) := t in o.
(** A reference to the named type [n], without description. *)
Definition named (k : Kind) (n : string) : TypeRef := mkTypeRef k n None None.
End Ref.

Module InputValue.
Record t : Set := make
  { name : string;
    description : option string;
    type : TypeRef }.
End InputValue.

Module Field.
Record t : Set := make
  { name : string;
    description : option string;
    args : list InputValue.t;
    type : TypeRef;
    isDeprecated : bool;
    deprecationReason : option string }.
End Field.

Module EnumValue.
Record t : Set := make
  { name : string;
    description : option string;
    isDeprecated : bool;
    deprecationReason : option string }.
End EnumValue.

Module Directive.
Record t : Set := make
  { name : string;
    description : option string;
    locations : list string;
    args : list InputValue.t }.
End Directive.

Module SchemaType.
Record t : Set := make
  { name : string;
    kind : Kind;
    description : option string;
    fields : list Field.t;
    inputFields : list InputValue.t;
    interfaces : list TypeRef;
    enumValues : list EnumValue.t;
    possibleTypes : list TypeRef }.
End SchemaType.

Module Schema.
Record t : Set := make
  { queryType : option TypeRef;
    mutationType : option TypeRef;
    subscriptionType : option TypeRef;
    types : list SchemaType.t;
    directives : list Directive.t }.
End Schema.

(** [Field | Directive]: what [arguments] and [argumentsDescription] accept. *)
Class HasArgs (A : Type) : Type := args : A -> list InputValue.t.

#[export] Instance Field_HasArgs : HasArgs Field.t := Field.args.
#[export] Instance Directive_HasArgs : HasArgs Directive.t := Directive.args.

(** [Field | EnumValue]: what [deprecated] accepts. *)
Class Deprecable (A : Type) : Type :=
  { isDeprecated : A -> bool;
    deprecationReason : A -> option string }.

#[export] Instance Field_Deprecable : Deprecable Field.t :=
  {| isDeprecated := Field.isDeprecated;
     deprecationReason := Field.deprecationReason |}.
#[export] Instance EnumValue_Deprecable : Deprecable EnumValue.t :=
  {| isDeprecated := EnumValue.isDeprecated;
     deprecationReason := EnumValue.deprecationReason |}.

(** ** Collaborators of the plugin *)

(** The [html] helper object of lib/utility: the markup of a line, of an
    indentation, of a keyword and so on.  The plugin only composes them, so
    they are an interface here. *)
Class HTML : Type :=
  { line : string -> string;
    tab : string -> string;
    keyword : string -> string;
    comment : string -> string;
    property : string -> string;
    value : string -> string;
    highlight : string -> string;
    identifier : SchemaType.t -> string;
    useIdentifier : TypeRef -> string -> string }.

(** What [code] does: it returns a text or throws. *)
Inductive exn : Set := TypeError (message : string).

Inductive outcome : Set :=
  | Returned (text : string)
  | Thrown (e : exn).

(** Sequencing of a computation that may throw with what is done with its
    text. *)
Definition andThen (o : outcome) (k : string -> outcome) : outcome :=
  match o with
  | Returned text => k text
  | Thrown e => Thrown e
  end.

Definition MAX_CODE_LEN : nat := 80.

(** ** The plugin *)

Section SchemaPlugin.

Context {html : HTML}.

(** The [word-wrap] package: [wrap text width]. *)
Variable wrap : string -> nat -> string.

(** [Plugin.url] of lib/utility, the locator of a type.  The root-schema
    renderer applies it to [schema.mutationType] whether or not that type
    is defined, so its argument is nullable. *)
Variable url : option TypeRef -> string.

(** What [Plugin.url] does when it is applied to no type: it throws the
    error given here, or, with [None], it returns [url None]. *)
Variable urlOfUndefined : option exn.

(** The call [this.url(type)] for a type that may be undefined. *)
Definition callUrl (type : option TypeRef) : outcome :=
  match type, urlOfUndefined with
  | None, Some e => Thrown e
  | _, _ => Returned (url type)
  end.

Definition description (description : option string) : list string :=
  match description with
  | Some text =>
      if text =? "" then []
      else map (fun l => comment l) (split newline (wrap text MAX_CODE_LEN))
  | None => []
  end.

Definition inputValue (arg : InputValue.t) : string :=
  let argDescription := description (InputValue.description arg) in
  join ""
    (map (fun line_ => line (tab line_))
       (([] ++ argDescription)
          ++ [property (InputValue.name arg) ++ ": " ++
              useIdentifier (InputValue.type arg) (url (Some (InputValue.type arg)))])).

Definition arguments {A} `{HasArgs A} (fieldOrDirectives : A) : string :=
  if Nat.eqb (length (args fieldOrDirectives)) 0 then ""
  else "(" ++ join ", " (map (fun arg => inputValue arg) (args fieldOrDirectives)) ++ ")".

Definition argumentDescription (arg : InputValue.t) : list string :=
  let desc :=
    match InputValue.description arg with
    | None => "[" ++ highlight "Not documented" ++ "]"
    | Some text => text
    end in
  description (Some (highlight (InputValue.name arg) ++ ": " ++ desc)).

Definition argumentsDescription {A} `{HasArgs A} (fieldOrDirectives : A) : list string :=
  if Nat.eqb (length (args fieldOrDirectives)) 0 then []
  else
    let reduceArguments (descriptions : list string) (arg : InputValue.t) :=
      (descriptions ++ argumentDescription arg)%list in
    fold_left reduceArguments (args fieldOrDirectives) [comment "Arguments"].

Definition deprecated {A} `{Deprecable A} (fieldOrEnumVal : A) : string :=
  if negb (isDeprecated fieldOrEnumVal) then ""
  else
    match deprecationReason fieldOrEnumVal with
    | None => keyword "@deprecated"
    | Some reason =>
        if reason =? "" then keyword "@deprecated"
        else keyword "@deprecated"
             ++ "( reason: " ++ value (QUOTE ++ reason ++ QUOTE ++ " ") ++ " )"
    end.

Definition directive (directive : Directive.t) : string :=
  line (keyword "directive" ++ " " ++
        keyword ("@" ++ Directive.name directive) ++ arguments directive ++ " on " ++
        join " | " (map (fun location => keyword location) (Directive.locations directive))).

Definition enum (type : SchemaType.t) : string :=
  let reduceEnumValues (lines : list string) (enumValue : EnumValue.t) :=
    (lines ++ [""] ++ description (EnumValue.description enumValue)
       ++ [(property (EnumValue.name enumValue) ++ deprecated enumValue)%string])%list in
  line (keyword "enum" ++ " " ++ identifier type ++ " {") ++
  join "" (map (fun line_ => line (tab line_))
             (fold_left reduceEnumValues (SchemaType.enumValues type) [])) ++
  line "}".

(** The lines of a field before they are indented and joined: the array
    that [field] builds. *)
Definition fieldLines (field : Field.t) : list string :=
  let fieldDescription := description (Field.description field) in
  let argumentsDescription := argumentsDescription field in
  let fieldDescription :=
    if Nat.ltb 0 (length fieldDescription) && negb (Nat.eqb (length argumentsDescription) 0)
    then (fieldDescription ++ [comment ""])%list
    else fieldDescription in
  (([] ++ fieldDescription)
     ++ argumentsDescription
     ++ [(property (Field.name field) ++ arguments field ++ ": " ++
          useIdentifier (Field.type field) (url (Some (Field.type field))) ++ " " ++
          deprecated field)%string])%list.

Definition field (field : Field.t) : string :=
  join "" (map (fun line_ => line (tab line_)) (fieldLines field)).

Definition fields (type : SchemaType.t) : string :=
  line "" ++ join (line "") (map (fun f => field f) (SchemaType.fields type)).

Definition inputValues (inputValues : list InputValue.t) : string :=
  join "" (map (fun inputValue_ => line (tab (inputValue inputValue_))) inputValues).

Definition inputObject (type : SchemaType.t) : string :=
  line (keyword "input" ++ " " ++ identifier type ++ " {") ++
  inputValues (SchemaType.inputFields type) ++
  line "}".

Definition interfaces (type : SchemaType.t) : string :=
  line (keyword "interface" ++ " " ++ identifier type ++ " {") ++
  fields type ++
  line "}".

Definition object (type : SchemaType.t) : string :=
  let interfaces :=
    join ", " (map (fun i => useIdentifier i (url (Some i))) (SchemaType.interfaces type)) in
  let implement :=
    if Nat.eqb (String.length interfaces) 0 then ""
    else " " ++ keyword "implements" ++ " " ++ interfaces in
  line (keyword "type" ++ " " ++ identifier type ++ implement ++ " {") ++
  fields type ++
  line "}".

Definition scalar (type : SchemaType.t) : string :=
  line (keyword "scalar" ++ " " ++ identifier type).

Definition schema (schema : Schema.t) : outcome :=
  let definition := line (keyword "schema" ++ " {") in
  let definition :=
    match Schema.queryType schema with
    | Some queryType =>
        definition ++ line "" ++
        join "" (map (fun line_ => line (tab line_)) (description (Ref.description queryType))) ++
        line (tab (property "query" ++ ": " ++
                   useIdentifier queryType (url (Schema.queryType schema))))
    | None => definition
    end in
  let definition :=
    match Schema.mutationType schema with
    | Some mutationType =>
        definition ++ line "" ++
        join "" (map (fun line_ => line (tab line_)) (description (Ref.description mutationType))) ++
        line (tab (property "mutation" ++ ": " ++
                   useIdentifier mutationType (url (Schema.mutationType schema))))
    | None => definition
    end in
  andThen
    match Schema.subscriptionType schema with
    | Some subscriptionType =>
        andThen (callUrl (Schema.mutationType schema)) (fun mutationUrl =>
        Returned
          (definition ++ line "" ++
           join "" (map (fun line_ => line (tab line_)) (description (Ref.description subscriptionType))) ++
           line (tab (property "subscription" ++ ": " ++
                      useIdentifier subscriptionType mutationUrl))))
    | None => Returned definition
    end
    (fun definition =>
       let definition := definition ++ line "}" in
       Returned (join (line "") [definition])).

Definition union (type : SchemaType.t) : string :=
  line (keyword "union" ++ " " ++ identifier type ++ " = " ++
        join " | " (map (fun type_ => useIdentifier type_ (url (Some type_)))
                      (SchemaType.possibleTypes type))).

(** [this.document] is the first argument. *)
Definition code (document : Schema.t) (buildForType : option string) : outcome :=
  match buildForType with
  | None => schema document
  | Some target =>
      if target =? "" then schema document
      else
        match find (fun directive => Directive.name directive =? target)
                   (Schema.directives document) with
        | Some directive_ => Returned (directive directive_)
        | None =>
            match find (fun type => SchemaType.name type =? target)
                       (Schema.types document) with
            | Some type =>
                match SchemaType.kind type with
                | SCALAR => Returned (scalar type)
                | OBJECT => Returned (object type)
                | INTERFACE => Returned (interfaces type)
                | UNION => Returned (union type)
                | ENUM => Returned (enum type)
                | INPUT_OBJECT => Returned (inputObject type)
                | LIST | NON_NULL => Thrown (TypeError ("Unexpected type: " ++ target))
                end
            | None => Thrown (TypeError ("Unexpected type: " ++ target))
            end
        end
  end.

End SchemaPlugin.

(** ** A plain-text presentation, for running the renderers *)

Definition TAB : string := String "009"%char "".

(** The text of a type reference with its wrappers: [[T]] for a list,
    [T!] for a non-null type. *)
Fixpoint typeText (t : TypeRef) : string :=
  match t with
  | mkTypeRef k n _ o =>
      match k, o with
      | LIST, Some inner => "[" ++ typeText inner ++ "]"
      | NON_NULL, Some inner => typeText inner ++ "!"
      | _, _ => n
      end
  end.

(** The named type under the LIST / NON_NULL wrappers of a reference. *)
Fixpoint namedType (t : TypeRef) : TypeRef :=
  match t with
  | mkTypeRef k _ _ o =>
      match k, o with
      | LIST, Some inner => namedType inner
      | NON_NULL, Some inner => namedType inner
      | _, _ => t
      end
  end.

(** Modelled from the spec: the [html] helper object of lib/utility, whose
    source is not available.  Following sections 4.6 and 6, a line is its
    content followed by one newline, an indentation is one tab, a comment is
    prefixed with the SDL comment sign, keywords, properties, values and
    identifiers are their own text, and a cross-reference shows the type
    signature with its wrappers (section 4.5); the locator is dropped. *)
Definition text_html : HTML :=
  {| line := fun code_ => code_ ++ NL;
     tab := fun code_ => TAB ++ code_;
     keyword := fun k => k;
     comment := fun c => "# " ++ c;
     property := fun p => p;
     value := fun v => v;
     highlight := fun t => t;
     identifier := fun type => SchemaType.name type;
     useIdentifier := fun type _ => typeText type |}.

(** Modelled from the spec: as [text_html], with the locator of a
    cross-reference kept visible after the type, in angle brackets. *)
Definition link_html : HTML :=
  {| line := fun code_ => code_ ++ NL;
     tab := fun code_ => TAB ++ code_;
     keyword := fun k => k;
     comment := fun c => "# " ++ c;
     property := fun p => p;
     value := fun v => v;
     highlight := fun t => t;
     identifier := fun type => SchemaType.name type;
     useIdentifier := fun type toUrl => typeText type ++ "<" ++ toUrl ++ ">" |}.

(** Modelled from the spec: [Plugin.url] of lib/utility (section 4.5), the
    page of the named type under the wrappers; no page for no type. *)
Definition page_url (type : option TypeRef) : string :=
  match type with
  | Some t => Ref.name (namedType t) ++ ".doc.html"
  | None => ""
  end.

(** Greedy filling of lines with words, for [greedy_wrap]. *)
Fixpoint fill (width : nat) (current : string) (words : list string) : list string :=
  match words with
  | [] => [current]
  | w :: rest =>
      if Nat.leb (String.length current + 1 + String.length w) width
      then fill width (current ++ " " ++ w) rest
      else current :: fill width w rest
  end.

(** Modelled from the spec: the [wrap] function of the word-wrap package
    (section 4.4): words are put on a line as long as they fit in the width,
    a word is never split, and a word longer than the width has a line of
    its own. *)
Definition greedy_wrap (text : string) (width : nat) : string :=
  match split " "%char text with
  | [] => ""
  | w :: rest => join NL (fill width w rest)
  end.

(** ** Definitions used to state the properties *)

(** Text with separators written out one element at a time:
    [x1 sep x2 sep ... xn]. *)
Definition separated (sep : string) (l : list string) : string :=
  match l with
  | [] => ""
  | x :: rest => x ++ fold_right (fun y acc => sep ++ y ++ acc) "" rest
  end.

(** Whether [needle] occurs in [text]. *)
Definition occurs (needle text : string) : bool :=
  match index 0 needle text with
  | Some _ => true
  | None => false
  end.

Section Statements.

Context {html : HTML}.
Variable wrap : string -> nat -> string.
Variable url : option TypeRef -> string.

(** The [name: Type] pair of an argument. *)
Definition nameType (arg : InputValue.t) : string :=
  property (InputValue.name arg) ++ ": " ++
  useIdentifier (InputValue.type arg) (url (Some (InputValue.type arg))).

(** The argument list as section 4.3 words it: nothing for no argument,
    otherwise the [name: Type] pairs between parentheses. *)
Definition argumentList {A} `{HasArgs A} (fieldOrDirectives : A) : string :=
  match args fieldOrDirectives with
  | [] => ""
  | _ :: _ => "(" ++ separated ", " (map nameType (args fieldOrDirectives)) ++ ")"
  end.

(** The output assembler of section 4.6: every line through [line]. *)
Definition assemble (lines : list string) : string :=
  fold_right (fun l acc => line l ++ acc) "" lines.

(** The declaration line of a field. *)
Definition declaration (f : Field.t) : string :=
  property (Field.name f) ++ arguments wrap url f ++ ": " ++
  useIdentifier (Field.type f) (url (Some (Field.type f))) ++ " " ++ deprecated f.

(** The lines of one root operation in the [schema] block, as section 4.7
    words them: none when the root type is undefined; otherwise a blank
    line, the description of the root type as indented comments, and the
    indented [label: Type] line, with [locator] for its cross-reference. *)
Definition rootLines (label : string) (root : option TypeRef) (locator : string)
  : list string :=
  match root with
  | None => []
  | Some type =>
      ("" :: map tab (description wrap (Ref.description type))
          ++ [tab (property label ++ ": " ++ useIdentifier type locator)%string])%list
  end.

(** The text of the lines of one root operation. *)
Definition rootBlock (label : string) (root : option TypeRef) (locator : string)
  : string :=
  assemble (rootLines label root locator).

End Statements.

(** The schema [s] with another type collection. *)
Definition withTypes (s : Schema.t) (types : list SchemaType.t) : Schema.t :=
  Schema.make (Schema.queryType s) (Schema.mutationType s) (Schema.subscriptionType s)
              types (Schema.directives s).

(** The lines of the [schema] block as section 4.7 words them, with the
    locators of the three cross-references. *)
Definition schemaLines {html : HTML} (wrap : string -> nat -> string) (s : Schema.t)
  (queryUrl mutationUrl subscriptionUrl : string) : list string :=
  ([(keyword "schema" ++ " {")%string]
     ++ rootLines wrap "query" (Schema.queryType s) queryUrl
     ++ rootLines wrap "mutation" (Schema.mutationType s) mutationUrl
     ++ rootLines wrap "subscription" (Schema.subscriptionType s) subscriptionUrl
     ++ ["}"])%list.

(** ** Sample data *)

Definition ID : TypeRef := Ref.named SCALAR "ID".

Definition idArg : InputValue.t := InputValue.make "id" None ID.

Definition idArgDocumented : InputValue.t := InputValue.make "id" (Some "The id") ID.

(** [node(id: ID): [ID]!], documented, deprecated with a reason. *)
Definition nodeField : Field.t :=
  Field.make "node" (Some "Fetch a node") [idArg]
    (mkTypeRef NON_NULL "" None (Some (mkTypeRef LIST "" None (Some ID))))
    true (Some "use ACTIVE").

(** [version: ID], with neither description nor arguments. *)
Definition versionField : Field.t := Field.make "version" None [] ID false None.

(** [legacy: ID], deprecated without a reason. *)
Definition legacyField : Field.t := Field.make "legacy" None [] ID true None.

Definition petUnion : SchemaType.t :=
  SchemaType.make "Pet" UNION None [] [] [] []
    [Ref.named OBJECT "Cat"; Ref.named OBJECT "Dog"].

Definition plainObject : SchemaType.t :=
  SchemaType.make "Foo" OBJECT None [versionField] [] [] [] [].

Definition implementingObject : SchemaType.t :=
  SchemaType.make "Foo" OBJECT None [versionField] []
    [Ref.named INTERFACE "A"; Ref.named INTERFACE "B"] [] [].

Definition authDirective : Directive.t := Directive.make "auth" None ["FIELD"] [].

Definition authScalar : SchemaType.t := SchemaType.make "auth" SCALAR None [] [] [] [] [].

Definition emptySchema : Schema.t := Schema.make None None None [] [].

(** A schema with its three roots, a directive and a type of the same name. *)
Definition rootsSchema : Schema.t :=
  Schema.make (Some (mkTypeRef OBJECT "Query" (Some "The root") None))
              (Some (Ref.named OBJECT "Mutation"))
              (Some (Ref.named OBJECT "Subscription"))
              [petUnion; authScalar] [authDirective].

(** A schema with a query root and a subscription root, and no mutation
    root. *)
Definition querySubscriptionSchema : Schema.t :=
  Schema.make (Some (Ref.named OBJECT "Query")) None
              (Some (Ref.named OBJECT "Subscription")) [] [].

(** Modelled from the spec: what [Plugin.url] of lib/utility does when it is
    given no type; a reference that resolves to no type is a fatal
    precondition failure (sections 3 and 7), so the call throws. *)
Definition noTypeError : exn := TypeError "url: no type to locate".

(** ** The documents of the plugin *)

(** What [getDocuments] does: it returns document sections or lets the
    error of [code] through. *)
Inductive documents (Doc : Type) : Type :=
  | Sections (sections : list Doc)
  | Raised (e : exn).

Arguments Sections {Doc} sections.
Arguments Raised {Doc} e.

Section Documents.

Context {html : HTML}.
Variable wrap : string -> nat -> string.
Variable url : option TypeRef -> string.
Variable urlOfUndefined : option exn.

(** [html.code] of lib/utility, the markup of a block of code. *)
Variable html_code : string -> string.

(** The [DocumentSection] class of lib/utility and its constructor
    [new DocumentSection(title, description)]. *)
Variable DocumentSection : Type.
Variable newDocumentSection : string -> string -> DocumentSection.

Definition getDocuments (document : Schema.t) (buildForType : option string)
  : documents DocumentSection :=
  match code wrap url urlOfUndefined document buildForType with
  | Thrown e => Raised e
  | Returned code_ =>
      if code_ =? "" then Sections []
      else Sections [newDocumentSection "GraphQL Schema definition" (html_code code_)]
  end.

End Documents.

(** ** More definitions used to state the properties *)

(** The number of occurrences of a character in a text. *)
Fixpoint occurrences (c : ascii) (s : string) : nat :=
  match s with
  | EmptyString => 0
  | String x rest => (if Ascii.eqb x c then 1 else 0) + occurrences c rest
  end.

(** The lines of one enum value: a blank line, the comments of its
    description, its name with its deprecation marker. *)
Definition enumValueLines {html : HTML} (wrap : string -> nat -> string)
  (enumValue : EnumValue.t) : list string :=
  ("" :: description wrap (EnumValue.description enumValue)
      ++ [(property (EnumValue.name enumValue) ++ deprecated enumValue)%string])%list.

(** The renderer that [code] selects for the kind of a type. *)
Definition renderByKind {html : HTML} (wrap : string -> nat -> string)
  (url : option TypeRef -> string) (type : SchemaType.t) : outcome :=
  match SchemaType.kind type with
  | SCALAR => Returned (scalar type)
  | OBJECT => Returned (object wrap url type)
  | INTERFACE => Returned (interfaces wrap url type)
  | UNION => Returned (union url type)
  | ENUM => Returned (enum wrap type)
  | INPUT_OBJECT => Returned (inputObject wrap url type)
  | LIST | NON_NULL =>
      Thrown (TypeError ("Unexpected type: " ++ SchemaType.name type))
  end.

(** Whether two schemas have the same three root operation types. *)
Definition sameRoots (s s' : Schema.t) : Prop :=
  Schema.queryType s = Schema.queryType s'
  /\ Schema.mutationType s = Schema.mutationType s'
  /\ Schema.subscriptionType s = Schema.subscriptionType s'.

(** ** More sample data *)

Definition statusEnum : SchemaType.t :=
  SchemaType.make "Status" ENUM None [] [] []
    [EnumValue.make "ACTIVE" (Some "In use") false None;
     EnumValue.make "OLD" None true (Some "use ACTIVE")] [].

Definition filterInput : SchemaType.t :=
  SchemaType.make "Filter" INPUT_OBJECT None []
    [idArg; InputValue.make "first" None (Ref.named SCALAR "Int")] [] [] [].

Definition nodeInterface : SchemaType.t :=
  SchemaType.make "Node" INTERFACE None [versionField; legacyField] [] [] [] [].

(** A type whose kind is a wrapper: no renderer handles it. *)
Definition wrapperType : SchemaType.t :=
  SchemaType.make "Wrapped" LIST None [] [] [] [] [].

Definition librarySchema : Schema.t :=
  Schema.make (Some (Ref.named OBJECT "Query")) None None
              [petUnion; statusEnum; filterInput; nodeInterface; wrapperType]
              [authDirective].

(** The argument [id] with the empty text as its description. *)
Definition idArgEmptyText : InputValue.t := InputValue.make "id" (Some "") ID.

(** ** Strings and joins *)

Lemma append_nil_r (s : string) : s ++ "" = s.
Proof. induction s as [|c s IH]; simpl; [reflexivity | now rewrite IH]. Qed.

Lemma append_assoc (a b c : string) : (a ++ b) ++ c = a ++ b ++ c.
Proof. induction a as [|x a IH]; simpl; [reflexivity | now rewrite IH]. Qed.

Lemma append_length (a b : string) :
  String.length (a ++ b) = String.length a + String.length b.
Proof. induction a as [|x a IH]; simpl; [reflexivity | now rewrite IH]. Qed.

Lemma append_inv_head (p a b : string) : p ++ a = p ++ b -> a = b.
Proof.
  induction p as [|x p IH]; simpl; intros E; [exact E | apply IH; congruence].
Qed.

Lemma append_inv_tail (a b c : string) : a ++ c = b ++ c -> a = b.
Proof.
  revert b; induction a as [|x a IH]; intros [|y b] E; simpl in E.
  - reflexivity.
  - apply (f_equal String.length) in E; simpl in E; rewrite append_length in E; lia.
  - apply (f_equal String.length) in E; simpl in E; rewrite append_length in E; lia.
  - injection E as -> E; f_equal; now apply IH.
Qed.

Lemma length_zero_iff (s : string) : Nat.eqb (String.length s) 0 = true <-> s = "".
Proof. destruct s; simpl; split; intros E; congruence. Qed.

(** A join with the empty separator is the concatenation of the elements. *)
Lemma join_empty_map {A} (f : A -> string) (l : list A) :
  join "" (map f l) = fold_right (fun x acc => f x ++ acc) "" l.
Proof.
  unfold join; induction l as [|x [|y l] IH].
  - reflexivity.
  - simpl; now rewrite append_nil_r.
  - change (f x ++ "" ++ String.concat "" (map f (y :: l))
            = f x ++ fold_right (fun x acc => f x ++ acc) "" (y :: l)).
    now rewrite IH.
Qed.

(** A join puts the separator before every element but the first. *)
Lemma join_separated (sep : string) (l : list string) : join sep l = separated sep l.
Proof.
  unfold join, separated; destruct l as [|x l]; [reflexivity|].
  revert x; induction l as [|y l IH]; intros x.
  - simpl; now rewrite append_nil_r.
  - change (x ++ sep ++ String.concat sep (y :: l)
            = x ++ sep ++ y ++ fold_right (fun y acc => sep ++ y ++ acc) "" l).
    now rewrite IH.
Qed.

(** [split] never returns the empty array. *)
Lemma split_not_nil (sep : ascii) (s : string) : split sep s <> [].
Proof.
  destruct s as [|c s]; simpl; [discriminate|].
  destruct (Ascii.eqb c sep); [discriminate|].
  destruct (split sep s); discriminate.
Qed.

Lemma fold_left_concat {A B} (f : A -> list B) (l : list A) (init : list B) :
  fold_left (fun acc x => (acc ++ f x)%list) l init = (init ++ flat_map f l)%list.
Proof.
  revert init; induction l as [|x l IH]; intros init; simpl.
  - now rewrite app_nil_r.
  - now rewrite IH, <- app_assoc.
Qed.

(** ** The description formatter and the blocks built from it *)

Section Blocks.

Context {html : HTML}.
Variable wrap : string -> nat -> string.
Variable url : option TypeRef -> string.
Variable urlOfUndefined : option exn.

Lemma description_some (text : string) :
  text <> "" ->
  description wrap (Some text) = map comment (split newline (wrap text MAX_CODE_LEN)).
Proof.
  intros Hne; unfold description.
  destruct (String.eqb_spec text ""); [contradiction | reflexivity].
Qed.

Lemma description_nil_iff (d : option string) :
  description wrap d = [] <-> d = None \/ d = Some "".
Proof.
  split.
  - destruct d as [text|]; [|now left].
    unfold description; destruct (String.eqb_spec text "") as [->|Hne]; [now right|].
    intros E; apply map_eq_nil in E; now apply split_not_nil in E.
  - intros [->| ->]; reflexivity.
Qed.

Lemma assemble_app (l1 l2 : list string) :
  assemble (l1 ++ l2) = assemble l1 ++ assemble l2.
Proof.
  unfold assemble; induction l1 as [|x l1 IH]; simpl; [reflexivity|].
  now rewrite IH, append_assoc.
Qed.

Lemma assemble_cons (l : string) (lines : list string) :
  assemble (l :: lines) = line l ++ assemble lines.
Proof. reflexivity. Qed.

Lemma assemble_one (l : string) : assemble [l] = line l.
Proof. unfold assemble; simpl; apply append_nil_r. Qed.

(** Indenting every line and joining them is assembling the indented lines. *)
Lemma join_lines (lines : list string) :
  join "" (map (fun line_ => line (tab line_)) lines) = assemble (map tab lines).
Proof.
  rewrite join_empty_map; unfold assemble.
  induction lines as [|x lines IH]; simpl; [reflexivity | now rewrite IH].
Qed.

Lemma rootBlock_some (label : string) (type : TypeRef) (locator : string) :
  rootBlock wrap label (Some type) locator
  = line "" ++ assemble (map tab (description wrap (Ref.description type)))
    ++ line (tab (property label ++ ": " ++ useIdentifier type locator)).
Proof.
  unfold rootBlock, rootLines.
  now rewrite assemble_cons, assemble_app, assemble_one.
Qed.

(** The call of the resolver returns the locator, unless it is given no
    type and throws on that. *)
Lemma callUrl_returns (type : option TypeRef) :
  type <> None \/ urlOfUndefined = None ->
  callUrl url urlOfUndefined type = Returned (url type).
Proof.
  unfold callUrl; intros [Hdef | ->]; destruct type; try reflexivity.
  congruence.
Qed.

Lemma callUrl_throws (e : exn) :
  urlOfUndefined = Some e -> callUrl url urlOfUndefined None = Thrown e.
Proof. now intros ->. Qed.

(** The [schema] rendering, one block per root operation: the locator of the
    subscription block is asked for only when there is a subscription root. *)
Lemma schema_blocks (s : Schema.t) :
  schema wrap url urlOfUndefined s
  = andThen
      match Schema.subscriptionType s with
      | Some _ => callUrl url urlOfUndefined (Schema.mutationType s)
      | None => Returned (url (Schema.mutationType s))
      end
      (fun mutationUrl =>
         Returned
           (line (keyword "schema" ++ " {")
            ++ rootBlock wrap "query" (Schema.queryType s) (url (Schema.queryType s))
            ++ rootBlock wrap "mutation" (Schema.mutationType s) (url (Schema.mutationType s))
            ++ rootBlock wrap "subscription" (Schema.subscriptionType s) mutationUrl
            ++ line "}")).
Proof.
  unfold schema, join; cbn [String.concat].
  destruct (Schema.subscriptionType s) as [sub|].
  - destruct (callUrl url urlOfUndefined (Schema.mutationType s)) as [mutationUrl|e];
      [|reflexivity].
    cbn [andThen]; f_equal.
    destruct (Schema.queryType s) as [q|], (Schema.mutationType s) as [m|];
      rewrite ?rootBlock_some, ?join_lines; unfold rootBlock, rootLines, assemble;
      cbn [fold_right]; now rewrite ?append_assoc.
  - cbn [andThen]; f_equal.
    destruct (Schema.queryType s) as [q|], (Schema.mutationType s) as [m|];
      rewrite ?rootBlock_some, ?join_lines; unfold rootBlock, rootLines, assemble;
      cbn [fold_right]; now rewrite ?append_assoc.
Qed.

(** [schema] throws exactly when there is a subscription root, no mutation
    root, and the resolver throws on no type; the error is the resolver's. *)
Lemma schema_throws_iff (s : Schema.t) (e : exn) :
  schema wrap url urlOfUndefined s = Thrown e
  <-> Schema.subscriptionType s <> None
      /\ Schema.mutationType s = None
      /\ urlOfUndefined = Some e.
Proof.
  rewrite schema_blocks; unfold callUrl.
  destruct (Schema.subscriptionType s) as [sub|], (Schema.mutationType s) as [m|],
    urlOfUndefined as [e'|]; cbn [andThen]; split;
    try discriminate; try (intros (H1 & H2 & H3); congruence).
  intros E; injection E as ->; repeat split; discriminate.
Qed.

End Blocks.

(** ** The root-schema renderer *)

(** C1.  When the schema defines a subscription root type, the subscription
    line of the [schema] block shows the subscription type and takes the
    locator of its cross-reference from the mutation type: the renderer calls
    the resolver on [schema.mutationType], and the text is the head of the
    block, the query and mutation entries, and the subscription entry built
    with the locator that call returns (no text when the call throws); with a
    mutation root this is [url schema.mutationType]; the rendering only
    depends on the resolver through the locators of the query and mutation
    types. *)
Theorem schema_subscription_locator_from_mutation {html : HTML}
  (wrap : string -> nat -> string) (url : option TypeRef -> string)
  (urlOfUndefined : option exn)
  (s : Schema.t) (subscriptionType : TypeRef) :
  Schema.subscriptionType s = Some subscriptionType ->
  schema wrap url urlOfUndefined s
  = andThen (callUrl url urlOfUndefined (Schema.mutationType s)) (fun mutationUrl =>
      Returned
        (line (keyword "schema" ++ " {")
         ++ rootBlock wrap "query" (Schema.queryType s) (url (Schema.queryType s))
         ++ rootBlock wrap "mutation" (Schema.mutationType s) (url (Schema.mutationType s))
         ++ line ""
         ++ assemble (map tab (description wrap (Ref.description subscriptionType)))
         ++ line (tab (property "subscription" ++ ": " ++
                       useIdentifier subscriptionType mutationUrl))
         ++ line "}"))
  /\ (Schema.mutationType s <> None ->
      schema wrap url urlOfUndefined s
      = Returned
          (line (keyword "schema" ++ " {")
           ++ rootBlock wrap "query" (Schema.queryType s) (url (Schema.queryType s))
           ++ rootBlock wrap "mutation" (Schema.mutationType s) (url (Schema.mutationType s))
           ++ line ""
           ++ assemble (map tab (description wrap (Ref.description subscriptionType)))
           ++ line (tab (property "subscription" ++ ": " ++
                         useIdentifier subscriptionType (url (Schema.mutationType s))))
           ++ line "}"))
  /\ forall url' : option TypeRef -> string,
      url' (Schema.queryType s) = url (Schema.queryType s) ->
      url' (Schema.mutationType s) = url (Schema.mutationType s) ->
      schema wrap url' urlOfUndefined s = schema wrap url urlOfUndefined s.
Proof.
  intros Hsub.
  assert (E : schema wrap url urlOfUndefined s
              = andThen (callUrl url urlOfUndefined (Schema.mutationType s))
                  (fun mutationUrl =>
                     Returned
                       (line (keyword "schema" ++ " {")
                        ++ rootBlock wrap "query" (Schema.queryType s)
                             (url (Schema.queryType s))
                        ++ rootBlock wrap "mutation" (Schema.mutationType s)
                             (url (Schema.mutationType s))
                        ++ line ""
                        ++ assemble (map tab
                                       (description wrap (Ref.description subscriptionType)))
                        ++ line (tab (property "subscription" ++ ": " ++
                                      useIdentifier subscriptionType mutationUrl))
                        ++ line "}"))).
  { rewrite schema_blocks, Hsub.
    destruct (callUrl url urlOfUndefined (Schema.mutationType s)); [|reflexivity].
    cbn [andThen]; rewrite rootBlock_some; now rewrite !append_assoc. }
  split; [exact E | split].
  - intros Hm; rewrite E, callUrl_returns; [reflexivity | now left].
  - intros url' Hq Hm; rewrite !schema_blocks, Hsub.
    assert (Hc : callUrl url' urlOfUndefined (Schema.mutationType s)
                 = callUrl url urlOfUndefined (Schema.mutationType s))
      by (unfold callUrl; now rewrite Hm).
    now rewrite Hc, Hq, Hm.
Qed.

Lemma schema_subscription_locator_from_mutation_witness :
  schema (html := link_html) greedy_wrap page_url (Some noTypeError) rootsSchema
  = Returned
     ("schema {" ++ NL
    ++ NL
    ++ TAB ++ "# The root" ++ NL
    ++ TAB ++ "query: Query<Query.doc.html>" ++ NL
    ++ NL
    ++ TAB ++ "mutation: Mutation<Mutation.doc.html>" ++ NL
    ++ NL
    ++ TAB ++ "subscription: Subscription<Mutation.doc.html>" ++ NL
    ++ "}" ++ NL).
Proof.
  destruct (schema_subscription_locator_from_mutation (html := link_html)
              greedy_wrap page_url (Some noTypeError) rootsSchema
              (Ref.named OBJECT "Subscription") eq_refl) as (_ & E & _).
  rewrite E; [reflexivity | discriminate].
Defined.

(** C9, where the code fails it.  For the schema with a query root and a
    subscription root and no mutation root, with a resolver that throws when
    it is given no type, the root-schema renderer emits no [schema] block and
    no subscription line: it throws the error of the resolver, which it
    called on the undefined mutation type for the subscription line. *)
Theorem schema_subscription_without_mutation_throws :
  forall (html : HTML) (wrap : string -> nat -> string) (url : option TypeRef -> string)
         (e : exn),
    Schema.subscriptionType querySubscriptionSchema = Some (Ref.named OBJECT "Subscription")
    /\ Schema.mutationType querySubscriptionSchema = None
    /\ schema wrap url (Some e) querySubscriptionSchema = Thrown e.
Proof. intros html wrap url e; repeat split. Qed.

(** X14.  Whenever there is no subscription root, or there is a mutation
    root, or the resolver returns on no type, the root-schema renderer
    returns the [schema {] line, then for each of query, mutation and
    subscription the lines of that root operation (none when the root type is
    undefined; otherwise a blank line, the wrapped description of the root
    type as indented comments and the one indented [label: Type] line), then
    the closing brace. *)
Theorem schema_lines_per_defined_root {html : HTML}
  (wrap : string -> nat -> string) (url : option TypeRef -> string)
  (urlOfUndefined : option exn) (s : Schema.t) :
  Schema.subscriptionType s = None \/ Schema.mutationType s <> None \/ urlOfUndefined = None ->
  schema wrap url urlOfUndefined s
  = Returned (assemble (schemaLines wrap s (url (Schema.queryType s))
                          (url (Schema.mutationType s)) (url (Schema.mutationType s)))).
Proof.
  intros Hok; rewrite schema_blocks.
  assert (E : match Schema.subscriptionType s with
              | Some _ => callUrl url urlOfUndefined (Schema.mutationType s)
              | None => Returned (url (Schema.mutationType s))
              end = Returned (url (Schema.mutationType s))).
  { destruct (Schema.subscriptionType s) as [sub|]; [|reflexivity].
    apply callUrl_returns; destruct Hok as [Hs | [Hm | Hu]]; [discriminate | now left | now right]. }
  rewrite E; cbn [andThen]; unfold schemaLines, rootBlock.
  now rewrite !assemble_app, !assemble_one.
Qed.

Lemma schema_lines_per_defined_root_witness :
  schema (html := text_html) greedy_wrap page_url (Some noTypeError) rootsSchema
  = Returned ("schema {" ++ NL
              ++ NL
              ++ TAB ++ "# The root" ++ NL
              ++ TAB ++ "query: Query" ++ NL
              ++ NL
              ++ TAB ++ "mutation: Mutation" ++ NL
              ++ NL
              ++ TAB ++ "subscription: Subscription" ++ NL
              ++ "}" ++ NL).
Proof.
  rewrite (schema_lines_per_defined_root (html := text_html) greedy_wrap page_url
             (Some noTypeError) rootsSchema).
  - reflexivity.
  - right; left; discriminate.
Defined.

Example schema_no_root :
  schema (html := text_html) greedy_wrap page_url (Some noTypeError) emptySchema
  = Returned ("schema {" ++ NL ++ "}" ++ NL).
Proof. reflexivity. Qed.

(** ** The dispatcher *)

Lemma find_no_match {A} (p : A -> bool) (l : list A) :
  (forall x, In x l -> p x = false) -> find p l = None.
Proof.
  induction l as [|x l IH]; intros Hall; simpl; [reflexivity|].
  rewrite (Hall x (or_introl eq_refl)); apply IH; intros y Hy; apply Hall; now right.
Qed.

Lemma find_match {A} (p : A -> bool) (l : list A) (x : A) :
  In x l -> p x = true -> exists y, find p l = Some y /\ In y l /\ p y = true.
Proof.
  induction l as [|z l IH]; intros Hin Hp; [destruct Hin|]; simpl.
  destruct (p z) eqn:Hz.
  - exists z; repeat split; [now left | exact Hz].
  - destruct Hin as [->|Hin]; [congruence|].
    destruct (IH Hin Hp) as (y & Hf & Hy & Hpy); exists y; repeat split; auto.
Qed.




(** C10.  In a schema whose directives have non-empty names, for a target
    name that is the name of a directive and of a type, [code] returns the
    rendering of the directive found with that name, whatever the type
    collection of the schema is. *)
Theorem code_directive_before_type {html : HTML}
  (wrap : string -> nat -> string) (url : option TypeRef -> string)
  (urlOfUndefined : option exn)
  (document : Schema.t) (target : string) (d : Directive.t) (t : SchemaType.t) :
  (forall d', In d' (Schema.directives document) -> Directive.name d' <> "") ->
  In d (Schema.directives document) -> Directive.name d = target ->
  In t (Schema.types document) -> SchemaType.name t = target ->
  exists found,
    find (fun x => Directive.name x =? target) (Schema.directives document) = Some found
    /\ In found (Schema.directives document)
    /\ Directive.name found = target
    /\ code wrap url urlOfUndefined document (Some target)
       = Returned (directive wrap url found)
    /\ forall types, code wrap url urlOfUndefined (withTypes document types) (Some target)
                     = Returned (directive wrap url found).
Proof.
  intros Hnames Hd Hdn _ _.
  assert (Hne : target <> "") by (rewrite <- Hdn; now apply Hnames).
  destruct (find_match (fun x => Directive.name x =? target) _ d Hd) as (y & Hf & Hy & Hpy).
  { now apply String.eqb_eq. }
  exists y; repeat split; auto.
  - now apply String.eqb_eq.
  - unfold code. destruct (String.eqb_spec target ""); [contradiction|]. now rewrite Hf.
  - intros types; unfold code, withTypes; simpl.
    destruct (String.eqb_spec target ""); [contradiction|]. now rewrite Hf.
Qed.

Lemma code_directive_before_type_witness :
  code (html := text_html) greedy_wrap page_url (Some noTypeError) rootsSchema (Some "auth")
  = Returned ("directive @auth on FIELD" ++ NL).
Proof.
  destruct (code_directive_before_type (html := text_html) greedy_wrap page_url
              (Some noTypeError) rootsSchema "auth" authDirective authScalar)
    as (found & Hf & _ & _ & E & _).
  - intros d' [<-|[]]; discriminate.
  - now left.
  - reflexivity.
  - right; now left.
  - reflexivity.
  - rewrite E; injection Hf as <-; reflexivity.
Defined.

(** ** Argument lists *)

Lemma inputValue_lines {html : HTML}
  (wrap : string -> nat -> string) (url : option TypeRef -> string) (arg : InputValue.t) :
  inputValue wrap url arg
  = assemble (map tab (description wrap (InputValue.description arg) ++ [nameType url arg])).
Proof. unfold inputValue; now rewrite join_lines. Qed.

(** An undocumented argument is one indented line. *)
Lemma inputValue_undocumented {html : HTML}
  (wrap : string -> nat -> string) (url : option TypeRef -> string) (arg : InputValue.t) :
  InputValue.description arg = None ->
  inputValue wrap url arg = line (tab (nameType url arg)).
Proof.
  intros E; rewrite inputValue_lines, E; unfold assemble; simpl; apply append_nil_r.
Qed.


(** With one undocumented argument, the argument list is the parenthesised
    [name: Type] pair only if a line and an indentation add nothing to it. *)
Lemma arguments_single_pair {html : HTML}
  (wrap : string -> nat -> string) (url : option TypeRef -> string)
  (f : Field.t) (arg : InputValue.t) :
  Field.args f = [arg] -> InputValue.description arg = None ->
  arguments wrap url f = "(" ++ line (tab (nameType url arg)) ++ ")"
  /\ (arguments wrap url f = argumentList url f <->
      line (tab (nameType url arg)) = nameType url arg).
Proof.
  intros Hargs Hdesc.
  assert (E : arguments wrap url f = "(" ++ line (tab (nameType url arg)) ++ ")").
  { unfold arguments, args, Field_HasArgs; rewrite Hargs; cbn [length Nat.eqb map join String.concat].
    now rewrite inputValue_undocumented. }
  split; [exact E|].
  rewrite E; unfold argumentList, args, Field_HasArgs; rewrite Hargs.
  cbn [map separated fold_right]; rewrite append_nil_r.
  split.
  - intros H; apply append_inv_head in H; now apply append_inv_tail in H.
  - now intros ->.
Qed.


Example arguments_none :
  arguments (html := text_html) greedy_wrap page_url versionField = "".
Proof. reflexivity. Qed.

(** A documented argument carries its description into the argument list. *)
Example arguments_documented :
  arguments (html := text_html) greedy_wrap page_url
    (Field.make "node" None [idArgDocumented] ID false None)
  = "(" ++ TAB ++ "# The id" ++ NL ++ TAB ++ "id: ID" ++ NL ++ ")".
Proof. reflexivity. Qed.

(** ** Deprecation markers *)

(** C4, as the code has it.  The marker of a field or enum value is empty
    when it is not deprecated; it is the bare [@deprecated] keyword when it
    is deprecated and its reason is absent or empty; with a non-empty reason
    R it is the keyword followed by [( reason: ], the value markup of R
    between double quotes and one space, and [ )], R being embedded as it
    is. *)
Theorem deprecated_marker {html : HTML} (A : Type) (HA : Deprecable A) (x : A) :
  (isDeprecated x = false -> deprecated x = "")
  /\ (isDeprecated x = true ->
      deprecationReason x = None \/ deprecationReason x = Some "" ->
      deprecated x = keyword "@deprecated")
  /\ (forall reason, isDeprecated x = true -> deprecationReason x = Some reason ->
      reason <> "" ->
      deprecated x
      = keyword "@deprecated" ++ "( reason: " ++ value (QUOTE ++ reason ++ QUOTE ++ " ") ++ " )").
Proof.
  unfold deprecated; repeat split.
  - now intros ->.
  - intros -> [-> | ->]; reflexivity.
  - intros reason -> -> Hne; simpl.
    destruct (String.eqb_spec reason ""); [contradiction | reflexivity].
Qed.

Lemma deprecated_marker_witness :
  deprecated (html := text_html) versionField = ""
  /\ deprecated (html := text_html) legacyField = "@deprecated"
  /\ deprecated (html := text_html) nodeField
     = "@deprecated( reason: " ++ QUOTE ++ "use ACTIVE" ++ QUOTE ++ "  )".
Proof.
  split; [|split].
  - apply (deprecated_marker (html := text_html) _ _ versionField); reflexivity.
  - apply (deprecated_marker (html := text_html) _ _ legacyField); [reflexivity | now left].
  - destruct (deprecated_marker (html := text_html) _ _ nodeField) as (_ & _ & H).
    apply (H "use ACTIVE"); [reflexivity | reflexivity | discriminate].
Defined.

(** C4, as the spec words it, fails twice.  A field deprecated with the
    reason [use ACTIVE] has the marker [@deprecated( reason: "use ACTIVE"  )],
    in which [(reason: "use ACTIVE")] does not occur; and an enum value
    deprecated with the empty reason has the bare keyword, without any
    clause. *)
Lemma deprecated_reason_counterexample :
  (Field.isDeprecated nodeField = true
   /\ Field.deprecationReason nodeField = Some "use ACTIVE"
   /\ deprecated (html := text_html) nodeField
      = "@deprecated( reason: " ++ QUOTE ++ "use ACTIVE" ++ QUOTE ++ "  )"
   /\ occurs ("(reason: " ++ QUOTE ++ "use ACTIVE" ++ QUOTE ++ ")")
             (deprecated (html := text_html) nodeField) = false)
  /\ (deprecated (html := text_html) (EnumValue.make "OLD" None true (Some "")) = "@deprecated"
      /\ occurs "reason" (deprecated (html := text_html) (EnumValue.make "OLD" None true (Some "")))
         = false).
Proof. repeat split. Qed.

Example deprecated_text_verbatim (reason : string) :
  reason <> "" ->
  deprecated (html := text_html) (EnumValue.make "OLD" None true (Some reason))
  = "@deprecated( reason: " ++ QUOTE ++ reason ++ QUOTE ++ "  )".
Proof.
  intros Hne; unfold deprecated; simpl.
  destruct (String.eqb_spec reason ""); [contradiction|].
  now rewrite !append_assoc.
Qed.

(** ** Descriptions *)



(** Where the description is absent no comment line is emitted: a field
    without arguments is its declaration alone, an enum value its name. *)
Example field_undocumented :
  fieldLines (html := text_html) greedy_wrap page_url versionField = ["version: ID "].
Proof. reflexivity. Qed.

Example enum_undocumented :
  enum (html := text_html) greedy_wrap
    (SchemaType.make "Status" ENUM None [] [] []
       [EnumValue.make "ACTIVE" None false None;
        EnumValue.make "DEPRECATED" None true (Some "use ACTIVE")] [])
  = "enum Status {" ++ NL
    ++ TAB ++ NL
    ++ TAB ++ "ACTIVE" ++ NL
    ++ TAB ++ NL
    ++ TAB ++ "DEPRECATED@deprecated( reason: " ++ QUOTE ++ "use ACTIVE" ++ QUOTE ++ "  )" ++ NL
    ++ "}" ++ NL.
Proof. reflexivity. Qed.

(** ** Object and union types *)

Lemma join_nonempty (sep x : string) (l : list string) : x <> "" -> join sep (x :: l) <> "".
Proof.
  intros Hx E; rewrite join_separated in E; unfold separated in E.
  destruct x; [contradiction | discriminate].
Qed.

(** C6.  The header of an object type without interfaces is
    [type Name {]; when the type has interfaces, and their cross-references
    are not empty text, the header is [type Name implements I1, I2 {], the
    interfaces in declared order separated by a comma and a space. *)
Theorem object_header_implements {html : HTML}
  (wrap : string -> nat -> string) (url : option TypeRef -> string) (type : SchemaType.t) :
  (SchemaType.interfaces type = [] ->
   object wrap url type
   = line (keyword "type" ++ " " ++ identifier type ++ " {")
     ++ fields wrap url type ++ line "}")
  /\ (SchemaType.interfaces type <> [] ->
      (forall i, In i (SchemaType.interfaces type) -> useIdentifier i (url (Some i)) <> "") ->
      object wrap url type
      = line (keyword "type" ++ " " ++ identifier type
              ++ " " ++ keyword "implements" ++ " "
              ++ separated ", " (map (fun i => useIdentifier i (url (Some i)))
                                   (SchemaType.interfaces type))
              ++ " {")
        ++ fields wrap url type ++ line "}").
Proof.
  unfold object; split.
  - now intros ->.
  - intros Hne Hlinks.
    destruct (SchemaType.interfaces type) as [|i rest] eqn:E; [congruence|].
    cbn [map].
    destruct (Nat.eqb _ 0) eqn:Hlen.
    + apply length_zero_iff in Hlen; apply join_nonempty in Hlen; [contradiction|].
      apply Hlinks; now left.
    + now rewrite join_separated, !append_assoc.
Qed.

Lemma object_header_implements_witness :
  object (html := text_html) greedy_wrap page_url plainObject
  = "type Foo {" ++ NL ++ NL ++ TAB ++ "version: ID " ++ NL ++ "}" ++ NL
  /\ object (html := text_html) greedy_wrap page_url implementingObject
     = "type Foo implements A, B {" ++ NL ++ NL ++ TAB ++ "version: ID " ++ NL ++ "}" ++ NL.
Proof.
  split.
  - destruct (object_header_implements (html := text_html) greedy_wrap page_url plainObject)
      as [H _].
    rewrite (H eq_refl); reflexivity.
  - destruct (object_header_implements (html := text_html) greedy_wrap page_url
                implementingObject) as [_ H].
    rewrite H; [reflexivity | discriminate |].
    intros i [<-|[<-|[]]]; discriminate.
Defined.

Example object_without_implements :
  occurs "implements" (object (html := text_html) greedy_wrap page_url plainObject) = false.
Proof. reflexivity. Qed.

(** C7.  A union type is rendered as one line: [union Name = ] followed by
    the cross-references of its possible types, in declared order, separated
    by [ | ]; the union Pet of Cat and Dog reads [union Pet = Cat | Dog]. *)
Theorem union_single_line :
  (forall (html : HTML) (url : option TypeRef -> string) (type : SchemaType.t),
      union url type
      = line (keyword "union" ++ " " ++ identifier type ++ " = "
              ++ separated " | " (map (fun member => useIdentifier member (url (Some member)))
                                    (SchemaType.possibleTypes type))))
  /\ union (html := text_html) page_url petUnion = "union Pet = Cat | Dog" ++ NL
  /\ union (html := link_html) page_url petUnion
     = "union Pet = Cat<Cat.doc.html> | Dog<Dog.doc.html>" ++ NL.
Proof.
  split; [|split; reflexivity].
  intros html url type; unfold union; now rewrite join_separated.
Qed.

(** ** Fields *)

Lemma argumentsDescription_block {html : HTML}
  (wrap : string -> nat -> string) (A : Type) (HA : HasArgs A) (x : A) :
  argumentsDescription wrap x
  = match args x with
    | [] => []
    | _ :: _ => comment "Arguments" :: flat_map (argumentDescription wrap) (args x)
    end.
Proof.
  unfold argumentsDescription.
  destruct (args x) as [|arg rest]; [reflexivity|].
  cbn [length Nat.eqb]; now rewrite fold_left_concat.
Qed.

(** The arguments block is present exactly when there are arguments. *)
Lemma argumentsDescription_nil_iff {html : HTML}
  (wrap : string -> nat -> string) (A : Type) (HA : HasArgs A) (x : A) :
  argumentsDescription wrap x = [] <-> args x = [].
Proof.
  rewrite argumentsDescription_block; destruct (args x); split; congruence.
Qed.

(** C8.  In the lines of a field, when its description block and its
    arguments-description block are both non-empty, one blank comment line
    stands between them; when one of them is empty, they follow each other
    without separator.  The declaration comes last, and the text of the field
    is these lines, indented. *)
Theorem field_blank_comment_rule {html : HTML}
  (wrap : string -> nat -> string) (url : option TypeRef -> string) (f : Field.t) :
  (description wrap (Field.description f) <> [] ->
   argumentsDescription wrap f <> [] ->
   fieldLines wrap url f
   = (description wrap (Field.description f) ++ [comment ""]
        ++ argumentsDescription wrap f ++ [declaration wrap url f])%list)
  /\ (description wrap (Field.description f) = [] \/ argumentsDescription wrap f = [] ->
      fieldLines wrap url f
      = (description wrap (Field.description f)
           ++ argumentsDescription wrap f ++ [declaration wrap url f])%list)
  /\ field wrap url f = assemble (map tab (fieldLines wrap url f)).
Proof.
  unfold fieldLines, declaration; split; [|split].
  - intros Hd Ha.
    destruct (description wrap (Field.description f)) as [|d ds]; [congruence|].
    destruct (argumentsDescription wrap f) as [|a rest]; [congruence|].
    cbn [length Nat.ltb Nat.leb Nat.eqb negb andb]; cbn [app].
    now rewrite <- app_assoc.
  - intros [Hd | Ha].
    + now rewrite Hd.
    + rewrite Ha; cbn [length Nat.eqb negb]; now rewrite andb_false_r.
  - unfold field; apply join_lines.
Qed.

Lemma field_blank_comment_rule_witness :
  fieldLines (html := text_html) greedy_wrap page_url nodeField
  = ["# Fetch a node"; "# "; "# Arguments"; "# id: [Not documented]";
     declaration (html := text_html) greedy_wrap page_url nodeField]
  /\ fieldLines (html := text_html) greedy_wrap page_url versionField
     = [declaration (html := text_html) greedy_wrap page_url versionField].
Proof.
  split.
  - destruct (field_blank_comment_rule (html := text_html) greedy_wrap page_url nodeField)
      as (H & _ & _).
    rewrite H; [reflexivity | discriminate | discriminate].
  - destruct (field_blank_comment_rule (html := text_html) greedy_wrap page_url versionField)
      as (_ & H & _).
    rewrite H; [reflexivity | now left].
Defined.

(** A field with a description and no argument, and one with arguments and
    no description: no blank comment line. *)
Example field_description_only :
  fieldLines (html := text_html) greedy_wrap page_url
    (Field.make "name" (Some "The name") [] ID false None)
  = ["# The name"; "name: ID "].
Proof. reflexivity. Qed.

Example field_arguments_only :
  fieldLines (html := text_html) greedy_wrap page_url
    (Field.make "node" None [idArgDocumented] ID false None)
  = ["# Arguments"; "# id: The id";
     "node(" ++ TAB ++ "# The id" ++ NL ++ TAB ++ "id: ID" ++ NL ++ "): ID "].
Proof. reflexivity. Qed.

(** ** Splitting and the lines of a description *)

Lemma join_cons_char (sep : string) (c : ascii) (piece : string) (pieces : list string) :
  join sep (String c piece :: pieces) = String c (join sep (piece :: pieces)).
Proof. destruct pieces; reflexivity. Qed.

(** Joining the pieces of a split with the separator gives the text back. *)
Lemma split_join (sep : ascii) (s : string) :
  join (String sep "") (split sep s) = s.
Proof.
  induction s as [|c s IH]; [reflexivity|].
  simpl split; destruct (Ascii.eqb_spec c sep) as [->|Hne].
  - pose proof (split_not_nil sep s) as Hnil.
    destruct (split sep s) as [|piece pieces]; [congruence|].
    change (join (String sep "") ("" :: piece :: pieces))
      with (String sep (join (String sep "") (piece :: pieces))).
    now rewrite IH.
  - pose proof (split_not_nil sep s) as Hnil.
    destruct (split sep s) as [|piece pieces]; [congruence|].
    now rewrite join_cons_char, IH.
Qed.

(** A split has one piece more than the text has separators. *)
Lemma split_length (sep : ascii) (s : string) :
  length (split sep s) = S (occurrences sep s).
Proof.
  induction s as [|c s IH]; [reflexivity|].
  simpl; destruct (Ascii.eqb c sep); simpl.
  - now rewrite IH.
  - pose proof (split_not_nil sep s) as Hnil.
    destruct (split sep s) as [|piece pieces]; [congruence|]. exact IH.
Qed.

(** No piece of a split holds the separator. *)
Lemma split_pieces_free (sep : ascii) (s : string) :
  Forall (fun piece => occurrences sep piece = 0) (split sep s).
Proof.
  induction s as [|c s IH]; [repeat constructor|].
  simpl; destruct (Ascii.eqb c sep) eqn:Hc.
  - constructor; [reflexivity | exact IH].
  - destruct (split sep s) as [|piece pieces]; [repeat constructor; simpl; now rewrite Hc|].
    inversion IH as [|? ? Hp Hps]; subst.
    constructor; [simpl; now rewrite Hc, Hp | exact Hps].
Qed.

(** X1.  The description formatter gives no comment line exactly when the
    description is absent or the empty text: every other text, whatever the
    wrapping makes of it, gives at least one comment line. *)
Theorem description_empty_exactly {html : HTML}
  (wrap : string -> nat -> string) (text : option string) :
  description wrap text = [] <-> text = None \/ text = Some "".
Proof. apply description_nil_iff. Qed.

(** X2.  For a non-empty description, the formatter gives one comment per
    line of the wrapped text: the comments are those of pieces that hold no
    newline, that give the wrapped text back when joined with newlines, and
    that are one more than the newlines of the wrapped text. *)
Theorem description_one_comment_per_line {html : HTML}
  (wrap : string -> nat -> string) (text : string) :
  text <> "" ->
  exists pieces,
    description wrap (Some text) = map comment pieces
    /\ join NL pieces = wrap text MAX_CODE_LEN
    /\ Forall (fun piece => occurrences newline piece = 0) pieces
    /\ length (description wrap (Some text))
       = S (occurrences newline (wrap text MAX_CODE_LEN)).
Proof.
  intros Hne; exists (split newline (wrap text MAX_CODE_LEN)).
  rewrite (description_some wrap text Hne).
  repeat split.
  - apply split_join.
  - apply split_pieces_free.
  - now rewrite length_map, split_length.
Qed.

Lemma description_one_comment_per_line_witness :
  length (description (html := text_html) (fun _ _ => "Fetch" ++ NL ++ "a node")
            (Some "Fetch a node")) = 2.
Proof.
  destruct (description_one_comment_per_line (html := text_html)
              (fun _ _ => "Fetch" ++ NL ++ "a node") "Fetch a node")
    as (pieces & _ & _ & _ & L); [discriminate|].
  rewrite L; reflexivity.
Defined.

(** ** The comments of the arguments *)

Lemma description_length {html : HTML} (wrap : string -> nat -> string) (text : string) :
  text <> "" -> 1 <= length (description wrap (Some text)).
Proof.
  intros Hne; rewrite (description_some wrap text Hne), length_map, split_length; lia.
Qed.

Lemma argumentDescription_text_nonempty {html : HTML} (name_ desc : string) :
  highlight name_ ++ ": " ++ desc <> "".
Proof.
  intros E; apply (f_equal String.length) in E.
  rewrite append_length in E; simpl in E; lia.
Qed.

Lemma argumentDescription_length {html : HTML}
  (wrap : string -> nat -> string) (arg : InputValue.t) :
  1 <= length (argumentDescription wrap arg).
Proof.
  unfold argumentDescription; apply description_length, argumentDescription_text_nonempty.
Qed.

Lemma flat_map_length_le {A B} (f : A -> list B) (l : list A) :
  (forall x, 1 <= length (f x)) -> length l <= length (flat_map f l).
Proof.
  intros Hf; induction l as [|x l IH]; simpl; [lia|].
  rewrite length_app; specialize (Hf x); lia.
Qed.

(** X3.  An argument that has a description, be it the empty text, gets no
    fallback: its comment lines are the formatter applied to its name, a
    colon and that description, and there is at least one of them. *)
Theorem argumentDescription_documented {html : HTML}
  (wrap : string -> nat -> string) (arg : InputValue.t) (text : string) :
  InputValue.description arg = Some text ->
  argumentDescription wrap arg
  = map comment
      (split newline (wrap (highlight (InputValue.name arg) ++ ": " ++ text) MAX_CODE_LEN))
  /\ 1 <= length (argumentDescription wrap arg).
Proof.
  intros E; split; [|apply argumentDescription_length].
  unfold argumentDescription; rewrite E.
  apply description_some, argumentDescription_text_nonempty.
Qed.

Lemma argumentDescription_documented_witness :
  argumentDescription (html := text_html) greedy_wrap idArgEmptyText = ["# id: "]
  /\ argumentDescription (html := text_html) greedy_wrap idArgDocumented = ["# id: The id"].
Proof.
  split.
  - destruct (argumentDescription_documented (html := text_html) greedy_wrap
                idArgEmptyText "" eq_refl) as [E _].
    rewrite E; reflexivity.
  - destruct (argumentDescription_documented (html := text_html) greedy_wrap
                idArgDocumented "The id" eq_refl) as [E _].
    rewrite E; reflexivity.
Defined.

(** X4.  For a field or directive with arguments, the arguments block is the
    [Arguments] comment followed by the comment lines of every argument, in
    declared order; it has more lines than there are arguments. *)
Theorem argumentsDescription_header_then_arguments {html : HTML}
  (wrap : string -> nat -> string) (A : Type) (HA : HasArgs A) (x : A) :
  args x <> [] ->
  argumentsDescription wrap x
  = comment "Arguments" :: flat_map (argumentDescription wrap) (args x)
  /\ length (args x) < length (argumentsDescription wrap x).
Proof.
  intros Hne.
  assert (E : argumentsDescription wrap x
              = comment "Arguments" :: flat_map (argumentDescription wrap) (args x)).
  { rewrite argumentsDescription_block; destruct (args x); [congruence | reflexivity]. }
  split; [exact E|].
  rewrite E; simpl.
  pose proof (flat_map_length_le (argumentDescription wrap) (args x)
                (argumentDescription_length wrap)); lia.
Qed.

Lemma argumentsDescription_header_then_arguments_witness :
  argumentsDescription (html := text_html) greedy_wrap
    (Directive.make "include" None ["FIELD"] [idArgDocumented; idArg])
  = ["# Arguments"; "# id: The id"; "# id: [Not documented]"].
Proof.
  destruct (argumentsDescription_header_then_arguments (html := text_html) greedy_wrap _ _
              (Directive.make "include" None ["FIELD"] [idArgDocumented; idArg]))
    as [E _]; [discriminate|].
  rewrite E; reflexivity.
Defined.

(** X5.  The parenthesised argument list and the arguments block go
    together: the one is empty text exactly when the other has no line, and
    that is exactly when there is no argument. *)
Theorem arguments_and_block_together {html : HTML}
  (wrap : string -> nat -> string) (url : option TypeRef -> string)
  (A : Type) (HA : HasArgs A) (x : A) :
  (arguments wrap url x = "" <-> args x = [])
  /\ (argumentsDescription wrap x = [] <-> args x = [])
  /\ (arguments wrap url x = "" <-> argumentsDescription wrap x = []).
Proof.
  assert (Ha : arguments wrap url x = "" <-> args x = []).
  { unfold arguments; destruct (args x) as [|arg rest]; simpl; split; congruence. }
  assert (Hb : argumentsDescription wrap x = [] <-> args x = [])
    by apply argumentsDescription_nil_iff.
  split; [exact Ha | split; [exact Hb|]].
  rewrite Ha, Hb; tauto.
Qed.

(** ** Enum, field and input blocks *)

(** X6.  An enum type is its header line, then for every enum value in
    declared order a blank line, the comments of its description and its name
    with its deprecation marker, each of them indented, then the closing
    brace. *)
Theorem enum_lines_per_value {html : HTML}
  (wrap : string -> nat -> string) (type : SchemaType.t) :
  enum wrap type
  = line (keyword "enum" ++ " " ++ identifier type ++ " {")
    ++ assemble (map tab (flat_map (enumValueLines wrap) (SchemaType.enumValues type)))
    ++ line "}".
Proof.
  unfold enum; rewrite join_lines.
  change (fold_left _ (SchemaType.enumValues type) [])
    with (fold_left (fun acc ev => (acc ++ enumValueLines wrap ev)%list)
            (SchemaType.enumValues type) []).
  now rewrite fold_left_concat.
Qed.

(** X7.  The fields of an object or interface type: every field is preceded
    by one blank line, in declared order; a type without field still gives
    one blank line. *)
Theorem fields_blank_line_before_each {html : HTML}
  (wrap : string -> nat -> string) (url : option TypeRef -> string) (type : SchemaType.t) :
  fields wrap url type
  = match SchemaType.fields type with
    | [] => line ""
    | _ :: _ =>
        fold_right (fun f acc => line "" ++ field wrap url f ++ acc) ""
          (SchemaType.fields type)
    end.
Proof.
  unfold fields; rewrite join_separated.
  destruct (SchemaType.fields type) as [|f rest]; [apply append_nil_r|].
  cbn [map separated fold_right]; do 2 f_equal.
  induction rest as [|g rest IH]; [reflexivity|].
  cbn [map fold_right]; now rewrite IH.
Qed.

(** X8.  An input object is its header line, its input fields and the
    closing brace, without blank line; every input field, documented or not,
    is a line and an indentation around the field's own indented lines, which
    are the comments of its description and its [name: Type] pair; an
    undocumented input field is thus an indented line inside an indented
    line. *)
Theorem inputObject_nested_lines {html : HTML}
  (wrap : string -> nat -> string) (url : option TypeRef -> string) (type : SchemaType.t) :
  inputObject wrap url type
  = line (keyword "input" ++ " " ++ identifier type ++ " {")
    ++ assemble
         (map (fun inputField =>
                 tab (assemble
                        (map tab (description wrap (InputValue.description inputField)
                                    ++ [nameType url inputField]))))
              (SchemaType.inputFields type))
    ++ line "}".
Proof.
  unfold inputObject, inputValues.
  do 2 f_equal; rewrite join_empty_map; unfold assemble at 1.
  induction (SchemaType.inputFields type) as [|a rest IH]; [reflexivity|].
  cbn [map fold_right]; now rewrite inputValue_lines, IH.
Qed.

Example inputObject_undocumented_fields :
  inputObject (html := text_html) greedy_wrap page_url filterInput
  = "input Filter {" ++ NL
    ++ TAB ++ TAB ++ "id: ID" ++ NL ++ NL
    ++ TAB ++ TAB ++ "first: Int" ++ NL ++ NL
    ++ "}" ++ NL.
Proof. reflexivity. Qed.

Example inputObject_documented_field :
  inputObject (html := text_html) greedy_wrap page_url
    (SchemaType.make "Key" INPUT_OBJECT None [] [idArgDocumented] [] [] [])
  = "input Key {" ++ NL
    ++ TAB ++ TAB ++ "# The id" ++ NL ++ TAB ++ "id: ID" ++ NL ++ NL
    ++ "}" ++ NL.
Proof. reflexivity. Qed.

(** ** More on the dispatcher *)

Lemma find_all_differ {A} (p : A -> bool) (l : list A) :
  find p l = None -> forall x, In x l -> p x = false.
Proof.
  induction l as [|y l IH]; intros Hf x Hin; [destruct Hin|].
  simpl in Hf; destruct (p y) eqn:Hy; [discriminate|].
  destruct Hin as [<-|Hin]; [exact Hy | now apply IH].
Qed.

(** In a collection without two equal names, looking a member up by its
    name finds that member. *)
Lemma find_by_unique_name {A} (name_ : A -> string) (l : list A) (x : A) :
  NoDup (map name_ l) -> In x l ->
  find (fun y => name_ y =? name_ x) l = Some x.
Proof.
  induction l as [|y l IH]; intros Hnd Hin; [destruct Hin|].
  simpl in Hnd; inversion Hnd as [|? ? Hnotin Hnd']; subst.
  simpl; destruct Hin as [->|Hin].
  - now rewrite String.eqb_refl.
  - destruct (String.eqb_spec (name_ y) (name_ x)) as [E|_]; [|now apply IH].
    exfalso; apply Hnotin; rewrite E; now apply in_map.
Qed.

(** X9.  [code] throws for two reasons only.  Either the target is a
    non-empty name, no directive has it, and no type has it or the first type
    that has it is of a wrapper kind: the error is the [Unexpected type] one
    with the requested name.  Or there is no target, or the empty one, the
    schema has a subscription root and no mutation root, and the resolver
    throws on no type: the error is the resolver's. *)
Theorem code_throws_for_two_reasons {html : HTML}
  (wrap : string -> nat -> string) (url : option TypeRef -> string)
  (urlOfUndefined : option exn)
  (document : Schema.t) (buildForType : option string) (e : exn) :
  code wrap url urlOfUndefined document buildForType = Thrown e ->
  (exists target,
      buildForType = Some target
      /\ target <> ""
      /\ e = TypeError ("Unexpected type: " ++ target)
      /\ (forall d, In d (Schema.directives document) -> Directive.name d <> target)
      /\ match find (fun type => SchemaType.name type =? target) (Schema.types document) with
         | None => forall t, In t (Schema.types document) -> SchemaType.name t <> target
         | Some type => SchemaType.kind type = LIST \/ SchemaType.kind type = NON_NULL
         end)
  \/ ((buildForType = None \/ buildForType = Some "")
      /\ Schema.subscriptionType document <> None
      /\ Schema.mutationType document = None
      /\ urlOfUndefined = Some e).
Proof.
  unfold code; destruct buildForType as [target|].
  2:{ intros Hthrown; right; split; [now left | now apply schema_throws_iff in Hthrown]. }
  destruct (String.eqb_spec target "") as [->|Hne].
  { intros Hthrown; right; split; [now right | now apply schema_throws_iff in Hthrown]. }
  destruct (find _ (Schema.directives document)) as [d|] eqn:Hd; [discriminate|].
  intros Hthrown; left; exists target.
  assert (Hdirs : forall d, In d (Schema.directives document) -> Directive.name d <> target).
  { intros d Hin; apply String.eqb_neq.
    exact (find_all_differ _ _ Hd d Hin). }
  destruct (find _ (Schema.types document)) as [type|] eqn:Ht.
  - destruct (SchemaType.kind type) eqn:Hk; try discriminate;
      injection Hthrown as <-; repeat split; auto.
  - injection Hthrown as <-; repeat split; auto.
    intros t Hin; apply String.eqb_neq; exact (find_all_differ _ _ Ht t Hin).
Qed.

Lemma code_throws_for_two_reasons_witness :
  (exists target,
      Some "Wrapped" = Some target
      /\ target <> ""
      /\ TypeError "Unexpected type: Wrapped" = TypeError ("Unexpected type: " ++ target)
      /\ (forall d, In d (Schema.directives librarySchema) -> Directive.name d <> target)
      /\ match find (fun type => SchemaType.name type =? target)
                    (Schema.types librarySchema) with
         | None => forall t, In t (Schema.types librarySchema) -> SchemaType.name t <> target
         | Some type => SchemaType.kind type = LIST \/ SchemaType.kind type = NON_NULL
         end)
  \/ ((Some "Wrapped" = None \/ Some "Wrapped" = Some "")
      /\ Schema.subscriptionType librarySchema <> None
      /\ Schema.mutationType librarySchema = None
      /\ Some noTypeError = Some (TypeError "Unexpected type: Wrapped")).
Proof.
  exact (code_throws_for_two_reasons (html := text_html) greedy_wrap page_url
           (Some noTypeError) librarySchema (Some "Wrapped")
           (TypeError "Unexpected type: Wrapped") eq_refl).
Defined.

Example code_without_target_throws :
  code (html := text_html) greedy_wrap page_url (Some noTypeError) querySubscriptionSchema None
  = Thrown noTypeError.
Proof. reflexivity. Qed.

(** X10.  In a schema whose types have pairwise different names, a type of
    the schema whose name is not empty and is the name of no directive is
    rendered, when requested by its name, by the renderer of its kind; a type
    of a wrapper kind makes [code] throw. *)
Theorem code_renders_type_by_kind {html : HTML}
  (wrap : string -> nat -> string) (url : option TypeRef -> string)
  (urlOfUndefined : option exn)
  (document : Schema.t) (type : SchemaType.t) :
  NoDup (map SchemaType.name (Schema.types document)) ->
  In type (Schema.types document) ->
  SchemaType.name type <> "" ->
  (forall d, In d (Schema.directives document) -> Directive.name d <> SchemaType.name type) ->
  code wrap url urlOfUndefined document (Some (SchemaType.name type))
  = renderByKind wrap url type.
Proof.
  intros Hnd Hin Hne Hdirs; unfold code, renderByKind.
  destruct (String.eqb_spec (SchemaType.name type) ""); [contradiction|].
  rewrite find_no_match.
  - rewrite (find_by_unique_name SchemaType.name _ type Hnd Hin).
    destruct (SchemaType.kind type); reflexivity.
  - intros d Hd; apply String.eqb_neq; now apply Hdirs.
Qed.

Lemma code_renders_type_by_kind_witness :
  code (html := text_html) greedy_wrap page_url (Some noTypeError) librarySchema (Some "Status")
  = Returned ("enum Status {" ++ NL
              ++ TAB ++ NL
              ++ TAB ++ "# In use" ++ NL
              ++ TAB ++ "ACTIVE" ++ NL
              ++ TAB ++ NL
              ++ TAB ++ "OLD@deprecated( reason: " ++ QUOTE ++ "use ACTIVE" ++ QUOTE ++ "  )" ++ NL
              ++ "}" ++ NL).
Proof.
  change (Some "Status") with (Some (SchemaType.name statusEnum)).
  rewrite (code_renders_type_by_kind (html := text_html) greedy_wrap page_url
             (Some noTypeError) librarySchema statusEnum).
  - reflexivity.
  - repeat constructor; simpl; intuition discriminate.
  - right; now left.
  - discriminate.
  - intros d [<-|[]]; discriminate.
Defined.

(** X11.  Without a target, or with the empty one, [code] is the rendering
    of the root schema, its text or the error it throws, and that only
    depends on the three root operation types: the types and directives of
    the schema are not looked at. *)
Theorem code_without_target_roots_only {html : HTML}
  (wrap : string -> nat -> string) (url : option TypeRef -> string)
  (urlOfUndefined : option exn)
  (document document' : Schema.t) :
  sameRoots document document' ->
  code wrap url urlOfUndefined document None = schema wrap url urlOfUndefined document'
  /\ code wrap url urlOfUndefined document (Some "")
     = schema wrap url urlOfUndefined document'.
Proof.
  intros (Hq & Hm & Hs).
  assert (E : schema wrap url urlOfUndefined document
              = schema wrap url urlOfUndefined document')
    by (rewrite !schema_blocks; now rewrite Hq, Hm, Hs).
  unfold code; simpl; now rewrite E.
Qed.

Lemma code_without_target_roots_only_witness :
  code (html := text_html) greedy_wrap page_url (Some noTypeError) librarySchema None
  = Returned ("schema {" ++ NL ++ NL ++ TAB ++ "query: Query" ++ NL ++ "}" ++ NL).
Proof.
  destruct (code_without_target_roots_only (html := text_html) greedy_wrap page_url
              (Some noTypeError) librarySchema
              (Schema.make (Some (Ref.named OBJECT "Query")) None None [] []))
    as [E _].
  - repeat split.
  - rewrite E; reflexivity.
Defined.

(** ** The documents *)

(** X12.  [getDocuments] fails exactly when [code] throws, with the same
    error: it neither catches the error nor adds one. *)
Theorem getDocuments_fails_as_code {html : HTML}
  (wrap : string -> nat -> string) (url : option TypeRef -> string)
  (urlOfUndefined : option exn)
  (html_code : string -> string) (Doc : Type) (newDoc : string -> string -> Doc)
  (document : Schema.t) (buildForType : option string) (e : exn) :
  getDocuments wrap url urlOfUndefined html_code Doc newDoc document buildForType = Raised e
  <-> code wrap url urlOfUndefined document buildForType = Thrown e.
Proof.
  unfold getDocuments.
  destruct (code wrap url urlOfUndefined document buildForType) as [text|e'].
  - destruct (text =? ""); split; discriminate.
  - split; intros E; injection E as ->; reflexivity.
Qed.

(** X13.  When [getDocuments] returns, it returns no section if the text of
    [code] is empty and otherwise the one section titled
    [GraphQL Schema definition] whose content is the code markup of that
    text. *)
Theorem getDocuments_at_most_one_section {html : HTML}
  (wrap : string -> nat -> string) (url : option TypeRef -> string)
  (urlOfUndefined : option exn)
  (html_code : string -> string) (Doc : Type) (newDoc : string -> string -> Doc)
  (document : Schema.t) (buildForType : option string) (sections : list Doc) :
  getDocuments wrap url urlOfUndefined html_code Doc newDoc document buildForType = Sections sections ->
  exists text,
    code wrap url urlOfUndefined document buildForType = Returned text
    /\ length sections <= 1
    /\ (text = "" /\ sections = []
        \/ text <> "" /\ sections = [newDoc "GraphQL Schema definition" (html_code text)]).
Proof.
  unfold getDocuments.
  destruct (code wrap url urlOfUndefined document buildForType) as [text|e']; [|discriminate].
  destruct (String.eqb_spec text "") as [->|Hne]; intros E; injection E as <-;
    exists text || exists ""; repeat split; simpl; auto.
Qed.

Lemma getDocuments_at_most_one_section_witness :
  exists text,
    code (html := text_html) greedy_wrap page_url (Some noTypeError) emptySchema None
    = Returned text
    /\ length [("GraphQL Schema definition", "schema {" ++ NL ++ "}" ++ NL)] <= 1
    /\ (text = "" /\ [("GraphQL Schema definition", "schema {" ++ NL ++ "}" ++ NL)] = []
        \/ text <> ""
           /\ [("GraphQL Schema definition", "schema {" ++ NL ++ "}" ++ NL)]
              = [("GraphQL Schema definition", text)]).
Proof.
  exact (getDocuments_at_most_one_section (html := text_html) greedy_wrap page_url
           (Some noTypeError) (fun text => text) (string * string) pair emptySchema None
           [("GraphQL Schema definition", "schema {" ++ NL ++ "}" ++ NL)] eq_refl).
Defined.
